(** * baud-gen: dual-channel baud rate generator (ATtiny84)

    A shallow embedding of [baud-gen.c]: the divisor decoder [baud_set],
    the one-time hardware set-up [ioinit] and the polling loop of [main],
    followed by the properties of the selection-to-divisor logic.

    Integers are modelled in [Z] with the C conversions written out.
    The I/O registers form a register file, every register write and
    every call of [baud_set] is appended to an event log, and the input
    port PINA is supplied by the environment as a list of samples, one
    per iteration of the endless loop. *)

From Stdlib Require Import ZArith List Lia Bool.
Import ListNotations.
Local Open Scope Z_scope.

(* ------------------------------------------------------------------ *)
(** ** Machine integers *)

(** Conversion to an unsigned integer of [w] bits ([uint8_t] is
    [to_uint 8]). *)
Definition to_uint (w : Z) (z : Z) : Z := z mod 2 ^ w.

Definition to_uint8 (z : Z) : Z := to_uint 8 z.

(* ------------------------------------------------------------------ *)
(** ** Constants of baud-gen.c *)

Definition PA_DDR_INIT : Z := 0x40.    (* 0b01000000 *)
Definition PA_PUP_INIT : Z := 0x3f.    (* 0b00111111 *)
Definition PA_INIT : Z := 0x00.

Definition PB_DDR_INIT : Z := 0x04.    (* 0b00000100 *)
Definition PB_PUP_INIT : Z := 0x00.
Definition PB_INIT : Z := 0x00.

Definition BAUD_SEL_MASK : Z := 0x3f.  (* 0b00111111 *)
Definition BAUD_SEL_4800 : Z := 0.
Definition BAUD_SEL_9600 : Z := 1.
Definition BAUD_SEL_19200 : Z := 2.
Definition BAUD_SEL_38400 : Z := 3.
Definition BAUD_SEL_57600 : Z := 4.
Definition BAUD_SEL_115200 : Z := 5.

Definition BAUD_DIV_4800 : Z := 23.
Definition BAUD_DIV_9600 : Z := 11.
Definition BAUD_DIV_19200 : Z := 5.
Definition BAUD_DIV_38400 : Z := 2.
Definition BAUD_DIV_57600 : Z := 1.
Definition BAUD_DIV_115200 : Z := 15.
Definition BAUD_DEFAULT : Z := BAUD_DIV_9600.

Definition TCCR0A_INIT : Z := 0x42.    (* 0b01000010 *)
Definition TCCR0B_INIT : Z := 0x01.
Definition OCR0A_INIT : Z := BAUD_DEFAULT.
Definition TIMSK0_INIT : Z := 0x00.

Definition TCCR1A_INIT : Z := 0x40.    (* 0b01000000 *)
Definition TCCR1B_INIT : Z := 0x09.    (* 0b00001001 *)
Definition OCR1A_INIT : Z := BAUD_DEFAULT.
Definition TIMSK1_INIT : Z := 0x00.

(* ------------------------------------------------------------------ *)
(** ** baud_set *)

(** [uint8_t baud_set(int baud)]: the local [rate_divisor] is a
    [uint8_t], so every value stored in it goes through [to_uint8].
    The argument is an [int], modelled by its value. *)
Definition baud_set (baud : Z) : Z :=
  let rate_divisor := to_uint8 BAUD_DEFAULT in
  if baud =? BAUD_SEL_4800 then to_uint8 BAUD_DIV_4800
  else if baud =? BAUD_SEL_9600 then to_uint8 BAUD_DIV_9600
  else if baud =? BAUD_SEL_19200 then to_uint8 BAUD_DIV_19200
  else if baud =? BAUD_SEL_38400 then to_uint8 BAUD_DIV_38400
  else if baud =? BAUD_SEL_57600 then to_uint8 BAUD_DIV_57600
  else if baud =? BAUD_SEL_115200 then to_uint8 BAUD_DIV_115200
  else rate_divisor.

(* ------------------------------------------------------------------ *)
(** ** The microcontroller *)

(** The I/O registers the program writes. *)
Inductive reg : Set :=
| CLKPR
| TCCR0A | TCCR0B | OCR0A | TIMSK0
| TCCR1A | TCCR1B | OCR1A | TIMSK1
| DDRA | PORTA
| DDRB | PORTB.

Definition reg_eq_dec (a b : reg) : {a = b} + {a <> b}.
Proof. decide equality. Defined.

(** Timer1 is a 16-bit timer, its compare register is 16 bits wide;
    every other register written here is 8 bits wide. *)
Definition reg_width (r : reg) : Z :=
  match r with
  | OCR1A => 16
  | _ => 8
  end.

Definition regfile := reg -> Z.

Definition upd (r : reg) (v : Z) (f : regfile) : regfile :=
  fun r' => if reg_eq_dec r r' then v else f r'.

(** What the program does to the outside, in program order. *)
Inductive event : Set :=
| EvWrite (r : reg) (v : Z)      (* r = v; *)
| EvCall (baud : Z).             (* baud_set(baud) *)

Record mcu : Type := mkMcu {
  io : regfile;          (* contents of the I/O registers *)
  sreg_i : bool;         (* global interrupt enable flag *)
  log : list event       (* events so far, oldest first *)
}.

(** A computation on the microcontroller. *)
Definition M (A : Type) : Type := mcu -> A * mcu.

Definition ret {A} (a : A) : M A := fun m => (a, m).

Definition bind {A B} (c : M A) (k : A -> M B) : M B :=
  fun m => let (a, m') := c m in k a m'.

Declare Scope mcu_scope.
Delimit Scope mcu_scope with mcu.
Notation "x <- c ;; k" := (bind c (fun x => k))
  (at level 61, c at next level, right associativity) : mcu_scope.
Notation "c ;; k" := (bind c (fun _ => k))
  (at level 61, right associativity) : mcu_scope.
Local Open Scope mcu_scope.

(** [r = v;] on an I/O register. *)
Definition out (r : reg) (v : Z) : M unit :=
  fun m =>
    let v' := to_uint (reg_width r) v in
    (tt, {| io := upd r v' (io m);
            sreg_i := sreg_i m;
            log := log m ++ [EvWrite r v'] |}).

(** [cli()] *)
Definition cli : M unit :=
  fun m => (tt, {| io := io m; sreg_i := false; log := log m |}).

(** A call of [baud_set], recorded in the log. *)
Definition call_baud_set (baud : Z) : M Z :=
  fun m => (baud_set baud,
            {| io := io m; sreg_i := sreg_i m;
               log := log m ++ [EvCall baud] |}).

(** [void ioinit(void)] *)
Definition ioinit : M unit :=
  out CLKPR 0x80 ;;
  out CLKPR 0x00 ;;
  out TCCR0A TCCR0A_INIT ;;
  out TCCR0B TCCR0B_INIT ;;
  out OCR0A OCR0A_INIT ;;
  out TIMSK0 TIMSK0_INIT ;;
  out TCCR1A TCCR1A_INIT ;;
  out TCCR1B TCCR1B_INIT ;;
  out OCR1A OCR1A_INIT ;;
  out TIMSK1 TIMSK1_INIT ;;
  out DDRA PA_DDR_INIT ;;
  out PORTA (Z.lor PA_INIT PA_PUP_INIT) ;;
  out DDRB PB_DDR_INIT ;;
  out PORTB (Z.lor PB_INIT PB_PUP_INIT).

(** [baud_select_bits = PINA & BAUD_SEL_MASK;] where [pina] is the value
    read from the input port. *)
Definition baud_select (pina : Z) : Z :=
  to_uint8 (Z.land pina BAUD_SEL_MASK).

(** One pass through the body of [while ( 1 )] in [main]; [pina] is the
    value PINA holds on this pass.  The result is the value of the local
    [prev_selection] at the end of the pass. *)
Definition loop_body (pina : Z) (prev_selection : Z) : M Z :=
  let baud_select_bits := baud_select pina in
  if negb (baud_select_bits =? prev_selection) then
    d0 <- call_baud_set (Z.land baud_select_bits 0x07) ;;
    out OCR0A d0 ;;
    d1 <- call_baud_set (Z.land (Z.shiftr baud_select_bits 3) 0x07) ;;
    out OCR1A d1 ;;
    ret baud_select_bits
  else
    ret prev_selection.

(** The endless loop, run for as many passes as there are samples. *)
Fixpoint poll (samples : list Z) (prev_selection : Z) : M Z :=
  match samples with
  | [] => ret prev_selection
  | pina :: rest =>
      p <- loop_body pina prev_selection ;;
      poll rest p
  end.

(** The part of [main] before the loop. *)
Definition startup : M unit :=
  ioinit ;;
  cli.

(** [int main(void)], observed after [length samples] passes of the
    loop; the result is the value of [prev_selection] at that point. *)
Definition main (samples : list Z) : M Z :=
  let prev_selection := 0 in
  startup ;;
  poll samples prev_selection.

(** A microcontroller with cleared registers and an empty log, used for
    concrete runs. *)
Definition power_on : mcu :=
  {| io := fun _ => 0; sreg_i := false; log := [] |}.

(* ------------------------------------------------------------------ *)
(** ** Observations on the event log *)

(** The events a computation appends to the log when started in [m]. *)
Definition emitted {A} (c : M A) (m : mcu) : list event :=
  skipn (length (log m)) (log (snd (c m))).

(** The values written to register [r], in order. *)
Fixpoint writes_to (r : reg) (l : list event) : list Z :=
  match l with
  | [] => []
  | EvWrite r' v :: l' =>
      if reg_eq_dec r r' then v :: writes_to r l' else writes_to r l'
  | EvCall _ :: l' => writes_to r l'
  end.

(** All register writes, in order. *)
Fixpoint register_writes (l : list event) : list (reg * Z) :=
  match l with
  | [] => []
  | EvWrite r v :: l' => (r, v) :: register_writes l'
  | EvCall _ :: l' => register_writes l'
  end.

(** The arguments of the calls of [baud_set], in order. *)
Fixpoint decoder_args (l : list event) : list Z :=
  match l with
  | [] => []
  | EvWrite _ _ :: l' => decoder_args l'
  | EvCall b :: l' => b :: decoder_args l'
  end.

(** The state a pass that saw a change is shown to end in
    ([loop_body_diff]), for sampled input [bits]. *)
Definition applied (bits : Z) (m : mcu) : mcu :=
  let a := Z.land bits 0x07 in
  let b := Z.land (Z.shiftr bits 3) 0x07 in
  {| io := upd OCR1A (baud_set b) (upd OCR0A (baud_set a) (io m));
     sreg_i := sreg_i m;
     log := log m ++ [EvCall a; EvWrite OCR0A (baud_set a);
                      EvCall b; EvWrite OCR1A (baud_set b)] |}.

(** The divisor table of the specification, indexed by selector code. *)
Definition divisor_table : list Z := [23; 11; 5; 2; 1; 15; 11; 11].

(** A divisor fits one 8-bit compare register. *)
Definition is_divisor (d : Z) : Prop := 0 <= d <= 255.

(** A selector code is a 3-bit value. *)
Definition is_selector_code (c : Z) : Prop := 0 <= c <= 7.

(** The compare registers hold the divisors of the selection [sel]. *)
Definition tracks (sel : Z) (m : mcu) : Prop :=
  io m OCR0A = baud_set (Z.land sel 0x07) /\
  io m OCR1A = baud_set (Z.land (Z.shiftr sel 3) 0x07).

(** Frequency of the TTL oscillator named in README.md, in Hz. *)
Definition OSC_HZ : Z := 3686400.

(** A row of the rate table of README.md: the select code (the column
    [select] read as b2,b1,b0), the baud rate, and, where the row fills
    them in, the columns [gen-div-N], [UART-div] and [ATtiny-frq]. *)
Record rate_row : Set := mkRow {
  row_select : Z;
  row_baud : Z;
  row_timing : option (Z * Z * Z)
}.

Definition readme_table : list rate_row :=
  [ mkRow 0 4800 (Some (23, 16, 76800));
    mkRow 1 9600 (Some (11, 16, 153600));
    mkRow 2 19200 (Some (5, 16, 307200));
    mkRow 3 38400 (Some (2, 16, 614400));
    mkRow 4 57600 (Some (1, 16, 921600));
    mkRow 5 115200 (Some (15, 1, 115200));
    mkRow 6 9600 None;
    mkRow 7 9600 None ].

(* ------------------------------------------------------------------ *)
(** ** The decoder *)

Lemma baud_set_values :
  baud_set 0 = 23 /\ baud_set 1 = 11 /\ baud_set 2 = 5 /\ baud_set 3 = 2 /\
  baud_set 4 = 1 /\ baud_set 5 = 15 /\ baud_set 6 = 11 /\ baud_set 7 = 11.
Proof. repeat split; reflexivity. Qed.

Lemma baud_set_default (baud : Z) :
  baud < 0 \/ 5 < baud -> baud_set baud = 11.
Proof.
  intros H. unfold baud_set.
  repeat match goal with
         | |- context [?a =? ?b] =>
             destruct (Z.eqb_spec a b) as [E | _];
             [ cbv in E; lia | ]
         end.
  reflexivity.
Qed.

Lemma baud_set_cases (baud : Z) :
  In (baud_set baud) [23; 11; 5; 2; 1; 15].
Proof.
  unfold baud_set.
  repeat match goal with
         | |- context [?a =? ?b] => destruct (a =? b)
         end; cbv; tauto.
Qed.

Lemma baud_set_is_divisor (baud : Z) : is_divisor (baud_set baud).
Proof.
  unfold is_divisor.
  pose proof (baud_set_cases baud) as H. simpl in H.
  intuition lia.
Qed.

(** C1. For every code in [0,7], [baud_set] returns the divisor the
    table gives for it: 0 gives 23, 1 gives 11, 2 gives 5, 3 gives 2,
    4 gives 1, 5 gives 15, and the undefined codes 6 and 7 give the
    default divisor 11. *)
Theorem baud_set_tabulated (code : Z) :
  0 <= code <= 7 ->
  nth_error divisor_table (Z.to_nat code) = Some (baud_set code).
Proof.
  intros H.
  assert (code = 0 \/ code = 1 \/ code = 2 \/ code = 3 \/
          code = 4 \/ code = 5 \/ code = 6 \/ code = 7) as C by lia.
  repeat (destruct C as [-> | C]; [reflexivity | ]).
  subst code. reflexivity.
Qed.

Lemma baud_set_tabulated_witness :
  0 <= 6 <= 7 /\
  nth_error divisor_table (Z.to_nat 6) = Some (baud_set 6).
Proof. split; [lia | apply (baud_set_tabulated 6); lia]. Defined.

(** C10. [baud_set] is total over its whole [int] argument: every
    integer outside {0,1,2,3,4,5}, negative or large, gives the default
    divisor 11. *)
Theorem baud_set_outside_table (baud : Z) :
  ~ In baud [0; 1; 2; 3; 4; 5] -> baud_set baud = 11.
Proof.
  intros H. apply baud_set_default.
  simpl in H. lia.
Qed.

Lemma baud_set_outside_table_witness :
  ~ In (-32768) [0; 1; 2; 3; 4; 5] /\ baud_set (-32768) = 11.
Proof.
  assert (~ In (-32768) [0; 1; 2; 3; 4; 5]) as H by (simpl; lia).
  split; [exact H | apply (baud_set_outside_table (-32768)); exact H].
Defined.

(* ------------------------------------------------------------------ *)
(** ** Sampling and field extraction *)

Lemma baud_select_land (pina : Z) :
  baud_select pina = Z.land pina 0x3f.
Proof.
  unfold baud_select, to_uint8, to_uint, BAUD_SEL_MASK.
  change 0x3f with (Z.ones 6).
  rewrite Z.land_ones by lia.
  pose proof (Z.mod_pos_bound pina (2 ^ 6) ltac:(lia)).
  apply Z.mod_small. lia.
Qed.

Lemma baud_select_range (pina : Z) : 0 <= baud_select pina < 64.
Proof.
  rewrite baud_select_land.
  change 0x3f with (Z.ones 6).
  rewrite Z.land_ones by lia.
  pose proof (Z.mod_pos_bound pina (2 ^ 6) ltac:(lia)). lia.
Qed.

Lemma land_7_range (x : Z) : 0 <= Z.land x 0x07 < 8.
Proof.
  change 0x07 with (Z.ones 3).
  rewrite Z.land_ones by lia.
  pose proof (Z.mod_pos_bound x (2 ^ 3) ltac:(lia)). lia.
Qed.

Lemma to_uint_baud_set (r : reg) (baud : Z) :
  to_uint (reg_width r) (baud_set baud) = baud_set baud.
Proof.
  pose proof (baud_set_is_divisor baud) as [H0 H1].
  unfold to_uint. apply Z.mod_small.
  destruct r; cbn [reg_width]; lia.
Qed.

(** The two 3-bit fields, in terms of the raw sample. *)
Lemma field_a_raw (x : Z) :
  Z.land (baud_select x) 0x07 = Z.land x 0x07.
Proof.
  rewrite baud_select_land.
  apply Z.bits_inj'. intros i Hi.
  rewrite !Z.land_spec.
  destruct (Z_lt_dec i 3) as [Hlt | Hge].
  - change 0x3f with (Z.ones 6).
    rewrite Z.ones_spec_low by lia.
    rewrite Bool.andb_true_r. reflexivity.
  - change 0x07 with (Z.ones 3).
    rewrite Z.ones_spec_high by lia.
    rewrite !Bool.andb_false_r. reflexivity.
Qed.

Lemma field_b_raw (x : Z) :
  Z.land (Z.shiftr (baud_select x) 3) 0x07 = Z.land (Z.shiftr x 3) 0x07.
Proof.
  rewrite baud_select_land.
  apply Z.bits_inj'. intros i Hi.
  rewrite !Z.land_spec, !Z.shiftr_spec, Z.land_spec by lia.
  destruct (Z_lt_dec i 3) as [Hlt | Hge].
  - change 0x3f with (Z.ones 6).
    rewrite Z.ones_spec_low by lia.
    rewrite Bool.andb_true_r. reflexivity.
  - change 0x07 with (Z.ones 3).
    rewrite Z.ones_spec_high by lia.
    rewrite !Bool.andb_false_r. reflexivity.
Qed.

(** Bits 0..2 of a sample decide the channel A field. *)
Lemma field_a_bits (x y : Z) :
  (forall i, 0 <= i < 3 -> Z.testbit x i = Z.testbit y i) ->
  Z.land (baud_select x) 0x07 = Z.land (baud_select y) 0x07.
Proof.
  intros H. rewrite !baud_select_land.
  apply Z.bits_inj'. intros i Hi.
  rewrite !Z.land_spec.
  destruct (Z_lt_dec i 3) as [Hlt | Hge].
  - rewrite (H i) by lia. reflexivity.
  - change 0x07 with (Z.ones 3).
    rewrite Z.ones_spec_high by lia.
    rewrite !Bool.andb_false_r. reflexivity.
Qed.

(** Bits 3..5 of a sample decide the channel B field. *)
Lemma field_b_bits (x y : Z) :
  (forall i, 3 <= i < 6 -> Z.testbit x i = Z.testbit y i) ->
  Z.land (Z.shiftr (baud_select x) 3) 0x07 =
  Z.land (Z.shiftr (baud_select y) 3) 0x07.
Proof.
  intros H. rewrite !baud_select_land.
  apply Z.bits_inj'. intros i Hi.
  rewrite !Z.land_spec, !Z.shiftr_spec by lia.
  rewrite !Z.land_spec.
  destruct (Z_lt_dec i 3) as [Hlt | Hge].
  - rewrite (H (i + 3)) by lia. reflexivity.
  - change 0x07 with (Z.ones 3).
    rewrite Z.ones_spec_high by lia.
    rewrite !Bool.andb_false_r. reflexivity.
Qed.

(* ------------------------------------------------------------------ *)
(** ** One pass of the loop *)

Lemma loop_body_same (pina prev : Z) (m : mcu) :
  baud_select pina = prev -> loop_body pina prev m = (prev, m).
Proof.
  intros E. unfold loop_body.
  rewrite (proj2 (Z.eqb_eq _ _) E). reflexivity.
Qed.

Lemma loop_body_diff (pina prev : Z) (m : mcu) :
  baud_select pina <> prev ->
  loop_body pina prev m = (baud_select pina, applied (baud_select pina) m).
Proof.
  intros N. unfold loop_body.
  rewrite (proj2 (Z.eqb_neq _ _) N). cbn [negb].
  unfold bind, call_baud_set, out, ret, applied. cbn [io sreg_i log].
  rewrite !to_uint_baud_set.
  repeat rewrite <- app_assoc. reflexivity.
Qed.

Lemma loop_body_cases (pina prev : Z) (m : mcu) :
  (baud_select pina = prev /\ loop_body pina prev m = (prev, m)) \/
  (baud_select pina <> prev /\
   loop_body pina prev m = (baud_select pina, applied (baud_select pina) m)).
Proof.
  destruct (Z.eq_dec (baud_select pina) prev) as [E | N].
  - left. split; [exact E | apply loop_body_same; exact E].
  - right. split; [exact N | apply loop_body_diff; exact N].
Qed.

(* ------------------------------------------------------------------ *)
(** ** The log only grows *)

Lemma skipn_length_app {A} (l d : list A) : skipn (length l) (l ++ d) = d.
Proof. induction l as [| x l IH]; simpl; [reflexivity | exact IH]. Qed.

Lemma emitted_intro {A} (c : M A) (m : mcu) (d : list event) :
  log (snd (c m)) = log m ++ d -> emitted c m = d.
Proof. intros H. unfold emitted. rewrite H. apply skipn_length_app. Qed.

Lemma emitted_ret {A} (a : A) (m : mcu) : emitted (ret a) m = [].
Proof. apply emitted_intro. simpl. rewrite app_nil_r. reflexivity. Qed.

Lemma loop_body_log (pina prev : Z) (m : mcu) :
  log (snd (loop_body pina prev m)) =
  log m ++ emitted (loop_body pina prev) m.
Proof.
  destruct (loop_body_cases pina prev m) as [[_ E] | [_ E]].
  - rewrite (emitted_intro _ _ []); rewrite E; simpl;
      rewrite app_nil_r; reflexivity.
  - rewrite (emitted_intro _ _ _ (f_equal (fun p => log (snd p)) E)).
    rewrite E. reflexivity.
Qed.

Lemma poll_cons (pina : Z) (rest : list Z) (prev : Z) (m : mcu) :
  poll (pina :: rest) prev m =
  poll rest (fst (loop_body pina prev m)) (snd (loop_body pina prev m)).
Proof.
  simpl. unfold bind. destruct (loop_body pina prev m). reflexivity.
Qed.

Lemma poll_log (samples : list Z) :
  forall prev m,
    log (snd (poll samples prev m)) = log m ++ emitted (poll samples prev) m.
Proof.
  induction samples as [| pina rest IH]; intros prev m.
  - unfold emitted. simpl. rewrite skipn_all, app_nil_r. reflexivity.
  - assert (log (snd (poll (pina :: rest) prev m)) =
            log m ++ (emitted (loop_body pina prev) m ++
                      emitted (poll rest (fst (loop_body pina prev m)))
                              (snd (loop_body pina prev m)))) as H.
    { rewrite poll_cons, IH, loop_body_log, <- app_assoc. reflexivity. }
    rewrite (emitted_intro _ _ _ H). exact H.
Qed.

Lemma emitted_poll_cons (pina : Z) (rest : list Z) (prev : Z) (m : mcu) :
  emitted (poll (pina :: rest) prev) m =
  emitted (loop_body pina prev) m ++
  emitted (poll rest (fst (loop_body pina prev m)))
          (snd (loop_body pina prev m)).
Proof.
  apply emitted_intro.
  rewrite poll_cons, poll_log, loop_body_log.
  rewrite <- app_assoc. reflexivity.
Qed.

Lemma emitted_loop_body_same (pina prev : Z) (m : mcu) :
  baud_select pina = prev -> emitted (loop_body pina prev) m = [].
Proof.
  intros E. apply emitted_intro.
  rewrite (loop_body_same _ _ _ E). simpl. rewrite app_nil_r. reflexivity.
Qed.

Lemma emitted_loop_body_diff (pina prev : Z) (m : mcu) :
  baud_select pina <> prev ->
  emitted (loop_body pina prev) m =
  [EvCall (Z.land (baud_select pina) 0x07);
   EvWrite OCR0A (baud_set (Z.land (baud_select pina) 0x07));
   EvCall (Z.land (Z.shiftr (baud_select pina) 3) 0x07);
   EvWrite OCR1A (baud_set (Z.land (Z.shiftr (baud_select pina) 3) 0x07))].
Proof.
  intros N. apply emitted_intro.
  rewrite (loop_body_diff _ _ _ N). reflexivity.
Qed.

(** C2. On a pass whose sampled 6-bit input differs from
    [prev_selection], the compare register of channel A (OCR0A) is set
    to the divisor decoded from [input & 0x07], the compare register of
    channel B (OCR1A) to the divisor decoded from [(input >> 3) & 0x07],
    and [prev_selection] becomes the sampled input. *)
Theorem loop_body_change_applies (pina prev : Z) (m : mcu) :
  let input := Z.land pina 0x3f in
  input <> prev ->
  let r := loop_body pina prev m in
  io (snd r) OCR0A = baud_set (Z.land input 0x07) /\
  io (snd r) OCR1A = baud_set (Z.land (Z.shiftr input 3) 0x07) /\
  fst r = input.
Proof.
  intros input N r. subst input r.
  rewrite <- baud_select_land in *.
  rewrite (loop_body_diff _ _ _ N).
  repeat split.
Qed.

Lemma loop_body_change_applies_witness :
  Z.land 0x2d 0x3f <> 0 /\
  io (snd (loop_body 0x2d 0 power_on)) OCR0A = 15 /\
  io (snd (loop_body 0x2d 0 power_on)) OCR1A = 15 /\
  fst (loop_body 0x2d 0 power_on) = 0x2d.
Proof.
  assert (Z.land 0x2d 0x3f <> 0) as N by (vm_compute; discriminate).
  split; [exact N | ].
  exact (loop_body_change_applies 0x2d 0 power_on N).
Defined.

(** C3. On a pass whose sampled 6-bit input equals [prev_selection]
    nothing is written: the registers, the log and [prev_selection] are
    left as they were.  In particular, when the same input is presented
    on two passes in a row, the second pass changes nothing and writes
    to neither compare register. *)
Theorem loop_body_unchanged_noop (pina prev : Z) (m : mcu) :
  (Z.land pina 0x3f = prev ->
   loop_body pina prev m = (prev, m) /\
   emitted (loop_body pina prev) m = []) /\
  (let r := loop_body pina prev m in
   loop_body pina (fst r) (snd r) = (fst r, snd r) /\
   register_writes (emitted (loop_body pina (fst r)) (snd r)) = [] /\
   emitted (poll [pina; pina] prev) m = emitted (loop_body pina prev) m).
Proof.
  split.
  - intros E. rewrite <- baud_select_land in E. split.
    + apply loop_body_same. exact E.
    + apply emitted_loop_body_same. exact E.
  - intros r.
    assert (baud_select pina = fst r) as E.
    { subst r. destruct (loop_body_cases pina prev m) as [[E H] | [_ H]];
        rewrite H; simpl; congruence. }
    repeat split.
    + apply loop_body_same. exact E.
    + rewrite (emitted_loop_body_same _ _ _ E). reflexivity.
    + rewrite emitted_poll_cons. fold r.
      rewrite emitted_poll_cons.
      rewrite (emitted_loop_body_same _ _ _ E).
      rewrite (loop_body_same _ _ _ E). cbn [fst snd].
      cbn [poll]. rewrite emitted_ret, !app_nil_r.
      reflexivity.
Qed.

Lemma loop_body_unchanged_noop_witness :
  Z.land 0x49 0x3f = 0x09 /\
  loop_body 0x49 0x09 power_on = (0x09, power_on) /\
  emitted (loop_body 0x49 0x09) power_on = [].
Proof.
  assert (Z.land 0x49 0x3f = 0x09) as E by reflexivity.
  split; [exact E | ].
  exact (proj1 (loop_body_unchanged_noop 0x49 0x09 power_on) E).
Defined.

(* ------------------------------------------------------------------ *)
(** ** Channel independence *)

(** C4. When two inputs agree on bits 0..2, the divisor computed for
    channel A is the same whatever bits 3..5 are; when they agree on
    bits 3..5, the divisor computed for channel B is the same whatever
    bits 0..2 are.  The divisors are those written in a pass that sees
    a change. *)
Theorem channel_independence (x y px py : Z) (mx my : mcu) :
  Z.land x 0x3f <> px ->
  Z.land y 0x3f <> py ->
  ((forall i, 0 <= i < 3 -> Z.testbit x i = Z.testbit y i) ->
   writes_to OCR0A (emitted (loop_body x px) mx) =
     [baud_set (Z.land x 0x07)] /\
   writes_to OCR0A (emitted (loop_body y py) my) =
   writes_to OCR0A (emitted (loop_body x px) mx)) /\
  ((forall i, 3 <= i < 6 -> Z.testbit x i = Z.testbit y i) ->
   writes_to OCR1A (emitted (loop_body x px) mx) =
     [baud_set (Z.land (Z.shiftr x 3) 0x07)] /\
   writes_to OCR1A (emitted (loop_body y py) my) =
   writes_to OCR1A (emitted (loop_body x px) mx)).
Proof.
  intros Nx Ny. rewrite <- baud_select_land in Nx, Ny.
  rewrite (emitted_loop_body_diff _ _ _ Nx), (emitted_loop_body_diff _ _ _ Ny).
  cbn [writes_to].
  destruct (reg_eq_dec OCR0A OCR0A) as [_ | F]; [ | contradiction].
  destruct (reg_eq_dec OCR0A OCR1A) as [F | _]; [discriminate | ].
  destruct (reg_eq_dec OCR1A OCR0A) as [F | _]; [discriminate | ].
  destruct (reg_eq_dec OCR1A OCR1A) as [_ | F]; [ | contradiction].
  rewrite <- (field_a_raw x), <- (field_b_raw x).
  split; intros H; (split; [reflexivity | ]).
  - rewrite (field_a_bits y x); [reflexivity | ].
    intros i Hi. symmetry. apply H. exact Hi.
  - rewrite (field_b_bits y x); [reflexivity | ].
    intros i Hi. symmetry. apply H. exact Hi.
Qed.

Lemma channel_independence_witness :
  (Z.land 0x0d 0x3f <> 0 /\ Z.land 0x3d 0x3f <> 0 /\
   (forall i, 0 <= i < 3 -> Z.testbit 0x0d i = Z.testbit 0x3d i) /\
   writes_to OCR0A (emitted (loop_body 0x3d 0) power_on) =
   writes_to OCR0A (emitted (loop_body 0x0d 0) power_on)) /\
  (Z.land 0x29 0x3f <> 0 /\ Z.land 0x2e 0x3f <> 0 /\
   (forall i, 3 <= i < 6 -> Z.testbit 0x29 i = Z.testbit 0x2e i) /\
   writes_to OCR1A (emitted (loop_body 0x2e 0) power_on) =
   writes_to OCR1A (emitted (loop_body 0x29 0) power_on)).
Proof.
  assert (forall i, 0 <= i < 3 -> Z.testbit 0x0d i = Z.testbit 0x3d i) as Ha.
  { intros i Hi.
    assert (i = 0 \/ i = 1 \/ i = 2) as [-> | [-> | ->]] by lia;
      reflexivity. }
  assert (forall i, 3 <= i < 6 -> Z.testbit 0x29 i = Z.testbit 0x2e i) as Hb.
  { intros i Hi.
    assert (i = 3 \/ i = 4 \/ i = 5) as [-> | [-> | ->]] by lia;
      reflexivity. }
  assert (Z.land 0x0d 0x3f <> 0) as N1 by (vm_compute; discriminate).
  assert (Z.land 0x3d 0x3f <> 0) as N2 by (vm_compute; discriminate).
  assert (Z.land 0x29 0x3f <> 0) as N3 by (vm_compute; discriminate).
  assert (Z.land 0x2e 0x3f <> 0) as N4 by (vm_compute; discriminate).
  split.
  - repeat (split; [assumption | ]).
    exact (proj2 (proj1 (channel_independence 0x0d 0x3d 0 0
                           power_on power_on N1 N2) Ha)).
  - repeat (split; [assumption | ]).
    exact (proj2 (proj2 (channel_independence 0x29 0x2e 0 0
                           power_on power_on N3 N4) Hb)).
Defined.

(* ------------------------------------------------------------------ *)
(** ** No error path *)

(** C5. The decoder has no error path: for every 6-bit input, both
    3-bit fields decode to one of the tabulated divisors, which fits a
    compare register, and a pass of the loop always completes; the
    unmapped codes 6 and 7 give the default divisor 11. *)
Theorem baud_set_no_error_path (pina prev : Z) (m : mcu) :
  let input := Z.land pina 0x3f in
  let a := Z.land input 0x07 in
  let b := Z.land (Z.shiftr input 3) 0x07 in
  (In (baud_set a) [23; 11; 5; 2; 1; 15] /\ is_divisor (baud_set a)) /\
  (In (baud_set b) [23; 11; 5; 2; 1; 15] /\ is_divisor (baud_set b)) /\
  (exists p m', loop_body pina prev m = (p, m')) /\
  baud_set 6 = BAUD_DEFAULT /\ baud_set 7 = BAUD_DEFAULT /\
  BAUD_DEFAULT = 11.
Proof.
  intros input a b.
  repeat split;
    try apply baud_set_cases; try apply baud_set_is_divisor.
  destruct (loop_body pina prev m) as [p m']. exists p, m'. reflexivity.
Qed.

(* ------------------------------------------------------------------ *)
(** ** Start-up and change detection *)

Lemma main_unfold (samples : list Z) (m0 : mcu) :
  main samples m0 = poll samples 0 (snd (startup m0)).
Proof.
  unfold main, bind. destruct (startup m0) as [u m1]. reflexivity.
Qed.

Lemma startup_compare_registers (m0 : mcu) :
  io (snd (startup m0)) OCR0A = 11 /\ io (snd (startup m0)) OCR1A = 11.
Proof. split; reflexivity. Qed.

Lemma poll_all_same (samples : list Z) (prev : Z) (m : mcu) :
  Forall (fun pina => Z.land pina 0x3f = prev) samples ->
  poll samples prev m = (prev, m).
Proof.
  induction 1 as [| pina rest E _ IH].
  - reflexivity.
  - rewrite <- baud_select_land in E.
    rewrite poll_cons, (loop_body_same _ _ _ E). exact IH.
Qed.

Lemma loop_body_fst (pina prev : Z) (m : mcu) :
  fst (loop_body pina prev m) = baud_select pina.
Proof.
  destruct (loop_body_cases pina prev m) as [[E H] | [_ H]];
    rewrite H; cbn [fst]; congruence.
Qed.

Lemma poll_app_eq (s1 s2 : list Z) :
  forall prev m,
    poll (s1 ++ s2) prev m =
    poll s2 (fst (poll s1 prev m)) (snd (poll s1 prev m)).
Proof.
  induction s1 as [| x s1 IH]; intros prev m.
  - reflexivity.
  - rewrite <- app_comm_cons, !poll_cons. apply IH.
Qed.

Lemma poll_single (x prev : Z) (m : mcu) :
  poll [x] prev m = loop_body x prev m.
Proof. rewrite poll_cons. destruct (loop_body x prev m). reflexivity. Qed.

Lemma ioinit_log (m : mcu) :
  log (snd (ioinit m)) =
  log m ++
  [EvWrite CLKPR 0x80; EvWrite CLKPR 0x00;
   EvWrite TCCR0A 0x42; EvWrite TCCR0B 0x01;
   EvWrite OCR0A 11; EvWrite TIMSK0 0x00;
   EvWrite TCCR1A 0x40; EvWrite TCCR1B 0x09;
   EvWrite OCR1A 11; EvWrite TIMSK1 0x00;
   EvWrite DDRA 0x40; EvWrite PORTA 0x3f;
   EvWrite DDRB 0x04; EvWrite PORTB 0x00].
Proof.
  cbv [ioinit bind out snd log].
  repeat rewrite <- app_assoc. reflexivity.
Qed.

Lemma ioinit_emitted (m : mcu) :
  emitted ioinit m =
  [EvWrite CLKPR 0x80; EvWrite CLKPR 0x00;
   EvWrite TCCR0A 0x42; EvWrite TCCR0B 0x01;
   EvWrite OCR0A 11; EvWrite TIMSK0 0x00;
   EvWrite TCCR1A 0x40; EvWrite TCCR1B 0x09;
   EvWrite OCR1A 11; EvWrite TIMSK1 0x00;
   EvWrite DDRA 0x40; EvWrite PORTA 0x3f;
   EvWrite DDRB 0x04; EvWrite PORTB 0x00].
Proof. apply emitted_intro, ioinit_log. Qed.

Lemma startup_log (m : mcu) :
  log (snd (startup m)) = log m ++ emitted ioinit m.
Proof.
  assert (log (snd (startup m)) = log (snd (ioinit m))) as E.
  { unfold startup, bind, cli. destruct (ioinit m). reflexivity. }
  rewrite E, ioinit_emitted. apply ioinit_log.
Qed.

Lemma main_emitted (samples : list Z) (m0 : mcu) :
  emitted (main samples) m0 =
  emitted ioinit m0 ++ emitted (poll samples 0) (snd (startup m0)).
Proof.
  apply emitted_intro.
  rewrite main_unfold, poll_log, startup_log, <- app_assoc. reflexivity.
Qed.

(** C6. [prev_selection] starts at 0 and changes exactly on the passes
    that detect a change; starting from selection 0b000000, the input
    0b001001 causes exactly one write to each compare register, each
    with divisor 11.  Stated on [main]: its first pass on input
    0b001001 adds to the events of [ioinit] one call of the decoder and
    one write of 11 for each channel. *)
Theorem prev_selection_change_detection :
  (forall m0, fst (main [] m0) = 0) /\
  (forall samples x m0,
     fst (main (samples ++ [x]) m0) <> fst (main samples m0) <->
     Z.land x 0x3f <> fst (main samples m0)) /\
  (forall pina prev m,
     fst (loop_body pina prev m) <> prev <-> Z.land pina 0x3f <> prev) /\
  (forall m0,
     emitted (main [0x09]) m0 =
       emitted ioinit m0 ++
       [EvCall 1; EvWrite OCR0A 11; EvCall 1; EvWrite OCR1A 11] /\
     writes_to OCR0A (emitted (main [0x09]) m0) = [11; 11] /\
     writes_to OCR1A (emitted (main [0x09]) m0) = [11; 11] /\
     writes_to OCR0A (emitted (main []) m0) = [11] /\
     writes_to OCR1A (emitted (main []) m0) = [11] /\
     fst (main [0x09] m0) = 0x09 /\
     io (snd (main [0x09] m0)) OCR0A = 11 /\
     io (snd (main [0x09] m0)) OCR1A = 11) /\
  (forall m,
     writes_to OCR0A (emitted (loop_body 0x09 0) m) = [11] /\
     writes_to OCR1A (emitted (loop_body 0x09 0) m) = [11] /\
     fst (loop_body 0x09 0 m) = 0x09) /\
  (forall m0,
     register_writes (emitted (poll [0x09] 0) (snd (startup m0))) =
     [(OCR0A, 11); (OCR1A, 11)]).
Proof.
  assert (baud_select 0x09 <> 0) as N by (vm_compute; discriminate).
  assert (forall pina prev m,
             fst (loop_body pina prev m) <> prev <->
             Z.land pina 0x3f <> prev) as L.
  { intros pina prev m. rewrite <- baud_select_land.
    destruct (loop_body_cases pina prev m) as [[E H] | [E H]];
      rewrite H; cbn [fst]; tauto. }
  assert (forall m0,
             emitted (main [0x09]) m0 =
             emitted ioinit m0 ++
             [EvCall 1; EvWrite OCR0A 11; EvCall 1; EvWrite OCR1A 11]) as E9.
  { intros m0.
    rewrite main_emitted, emitted_poll_cons, (emitted_loop_body_diff _ _ _ N).
    cbn [poll]. rewrite emitted_ret. reflexivity. }
  split; [ | split; [ | split; [exact L | split; [ | split]]]].
  - intros m0. rewrite main_unfold. reflexivity.
  - intros samples x m0.
    rewrite !main_unfold, poll_app_eq, poll_single. apply L.
  - intros m0.
    split; [apply E9 | ].
    rewrite E9, main_emitted, !ioinit_emitted.
    cbn [poll]. rewrite emitted_ret.
    rewrite main_unfold, poll_single, (loop_body_diff _ _ _ N).
    repeat split.
  - intros m.
    rewrite (emitted_loop_body_diff _ _ _ N), (loop_body_diff _ _ _ N).
    repeat split.
  - intros m0.
    rewrite emitted_poll_cons, (emitted_loop_body_diff _ _ _ N).
    cbn [poll]. rewrite emitted_ret. reflexivity.
Qed.

(* ------------------------------------------------------------------ *)
(** ** Ranges *)

Lemma decoder_args_app (l1 l2 : list event) :
  decoder_args (l1 ++ l2) = decoder_args l1 ++ decoder_args l2.
Proof.
  induction l1 as [| [r v | b] l1 IH]; simpl; [ | | rewrite IH]; auto.
Qed.

Lemma register_writes_app (l1 l2 : list event) :
  register_writes (l1 ++ l2) = register_writes l1 ++ register_writes l2.
Proof.
  induction l1 as [| [r v | b] l1 IH]; simpl; [ | rewrite IH | ]; auto.
Qed.

Lemma loop_body_ranges (pina prev : Z) (m : mcu) :
  Forall is_selector_code (decoder_args (emitted (loop_body pina prev) m)) /\
  Forall (fun w => (fst w = OCR0A \/ fst w = OCR1A) /\ is_divisor (snd w))
         (register_writes (emitted (loop_body pina prev) m)).
Proof.
  destruct (Z.eq_dec (baud_select pina) prev) as [E | N].
  - rewrite (emitted_loop_body_same _ _ _ E). split; constructor.
  - rewrite (emitted_loop_body_diff _ _ _ N). cbn [decoder_args register_writes].
    pose proof (land_7_range (baud_select pina)) as Ha.
    pose proof (land_7_range (Z.shiftr (baud_select pina) 3)) as Hb.
    split; repeat constructor; cbn [fst snd];
      try apply baud_set_is_divisor; auto; lia.
Qed.

(** C7. On every pass, each value handed to [baud_set] is a selector
    code in [0,7], and each divisor [baud_set] returns and the loop
    writes to a compare register lies in [0,255]. *)
Theorem poll_ranges (samples : list Z) (prev : Z) (m : mcu) :
  let evs := emitted (poll samples prev) m in
  Forall is_selector_code (decoder_args evs) /\
  Forall (fun w => (fst w = OCR0A \/ fst w = OCR1A) /\ is_divisor (snd w))
         (register_writes evs) /\
  (forall baud, is_divisor (baud_set baud)).
Proof.
  cbv zeta.
  split; [ | split; [ | exact baud_set_is_divisor]];
    revert prev m; induction samples as [| pina rest IH]; intros prev m.
  - cbn [poll]. rewrite emitted_ret. constructor.
  - rewrite emitted_poll_cons, decoder_args_app.
    apply Forall_app. split; [apply loop_body_ranges | apply IH].
  - cbn [poll]. rewrite emitted_ret. constructor.
  - rewrite emitted_poll_cons, register_writes_app.
    apply Forall_app. split; [apply loop_body_ranges | apply IH].
Qed.

(* ------------------------------------------------------------------ *)
(** ** Order of the two writes *)

(** C8. In a pass that sees a change, the divisor of channel A is
    written strictly before the divisor of channel B: the register
    writes of the pass are the write to OCR0A followed by the write to
    OCR1A. *)
Theorem channel_a_before_b (pina prev : Z) (m : mcu) :
  let input := Z.land pina 0x3f in
  input <> prev ->
  register_writes (emitted (loop_body pina prev) m) =
  [(OCR0A, baud_set (Z.land input 0x07));
   (OCR1A, baud_set (Z.land (Z.shiftr input 3) 0x07))].
Proof.
  intros input N. subst input. rewrite <- baud_select_land in *.
  rewrite (emitted_loop_body_diff _ _ _ N). reflexivity.
Qed.

Lemma channel_a_before_b_witness :
  Z.land 0x0a 0x3f <> 0 /\
  register_writes (emitted (loop_body 0x0a 0) power_on) =
  [(OCR0A, 5); (OCR1A, 11)].
Proof.
  assert (Z.land 0x0a 0x3f <> 0) as N by (vm_compute; discriminate).
  split; [exact N | ].
  exact (channel_a_before_b 0x0a 0 power_on N).
Defined.

(* ------------------------------------------------------------------ *)
(** ** An input that is zero from the start *)

(** C9. When the 6-bit input reads 0b000000 on every pass from the
    start, the loop never writes a register: both compare registers
    keep the divisor 11 that [ioinit] gave them, not the divisor 23
    that the table gives for code 0, because [prev_selection] starts
    at 0 and so already equals the input. *)
Theorem zero_input_keeps_default (samples : list Z) (m0 : mcu) :
  Forall (fun pina => Z.land pina 0x3f = 0) samples ->
  let m := snd (main samples m0) in
  emitted (poll samples 0) (snd (startup m0)) = [] /\
  m = snd (startup m0) /\
  io m OCR0A = 11 /\ io m OCR1A = 11 /\
  fst (main samples m0) = 0 /\
  baud_set (Z.land 0 0x07) = 23 /\
  baud_set (Z.land (Z.shiftr 0 3) 0x07) = 23.
Proof.
  intros H m. subst m.
  rewrite main_unfold.
  destruct (startup_compare_registers m0) as [A B].
  pose proof (poll_all_same samples 0 (snd (startup m0)) H) as P.
  revert A B P. generalize (snd (startup m0)). intros ms A B P.
  split.
  - apply emitted_intro. rewrite P. cbn [snd].
    rewrite app_nil_r. reflexivity.
  - rewrite P. cbn [fst snd].
    split; [reflexivity | ].
    split; [exact A | ].
    split; [exact B | ].
    repeat split.
Qed.

Lemma zero_input_keeps_default_witness :
  Forall (fun pina => Z.land pina 0x3f = 0) [0x00; 0x40; 0xc0] /\
  io (snd (main [0x00; 0x40; 0xc0] power_on)) OCR0A = 11 /\
  io (snd (main [0x00; 0x40; 0xc0] power_on)) OCR1A = 11.
Proof.
  assert (Forall (fun pina => Z.land pina 0x3f = 0) [0x00; 0x40; 0xc0])
    as H by (repeat constructor).
  split; [exact H | ].
  pose proof (zero_input_keeps_default [0x00; 0x40; 0xc0] power_on H) as T.
  split; [exact (proj1 (proj2 (proj2 T))) |
          exact (proj1 (proj2 (proj2 (proj2 T))))].
Defined.

(* ------------------------------------------------------------------ *)
(** ** Concrete runs *)

(** Input 0b101101: both fields are 5, both channels get divisor 15. *)
Example run_0b101101 :
  register_writes (emitted (poll [0x2d] 0) (snd (startup power_on))) =
  [(OCR0A, 15); (OCR1A, 15)].
Proof. reflexivity. Qed.

(** Input 0b111111 (all pins open): both fields are 7, both channels
    get the default divisor 11. *)
Example run_0b111111 :
  register_writes (emitted (poll [0x3f] 0) (snd (startup power_on))) =
  [(OCR0A, 11); (OCR1A, 11)].
Proof. reflexivity. Qed.

(** The register writes of [ioinit]. *)
Example run_ioinit :
  register_writes (emitted ioinit power_on) =
  [(CLKPR, 0x80); (CLKPR, 0x00);
   (TCCR0A, 0x42); (TCCR0B, 0x01); (OCR0A, 11); (TIMSK0, 0x00);
   (TCCR1A, 0x40); (TCCR1B, 0x09); (OCR1A, 11); (TIMSK1, 0x00);
   (DDRA, 0x40); (PORTA, 0x3f); (DDRB, 0x04); (PORTB, 0x00)].
Proof. reflexivity. Qed.

(** A change, the same input again, then a change of channel B only. *)
Example run_three_passes :
  register_writes (emitted (main [0x0a; 0x0a; 0x02]) power_on) =
  register_writes (emitted ioinit power_on) ++
  [(OCR0A, 5); (OCR1A, 11); (OCR0A, 5); (OCR1A, 23)].
Proof. reflexivity. Qed.

(* ------------------------------------------------------------------ *)
(** ** Further properties of the decoder *)

(** X1. Distinct defined selector codes give distinct divisors: on the
    codes 0..5 the decoder is injective. *)
Theorem baud_set_injective_on_defined (a b : Z) :
  0 <= a <= 5 -> 0 <= b <= 5 -> a <> b -> baud_set a <> baud_set b.
Proof.
  intros Ha Hb N.
  assert (a = 0 \/ a = 1 \/ a = 2 \/ a = 3 \/ a = 4 \/ a = 5) as Ca by lia.
  assert (b = 0 \/ b = 1 \/ b = 2 \/ b = 3 \/ b = 4 \/ b = 5) as Cb by lia.
  repeat (destruct Ca as [-> | Ca]);
    repeat (destruct Cb as [-> | Cb]);
    subst; try (exfalso; apply N; reflexivity); vm_compute; discriminate.
Qed.

Lemma baud_set_injective_on_defined_witness :
  0 <= 0 <= 5 /\ 0 <= 5 <= 5 /\ 0 <> 5 /\ baud_set 0 <> baud_set 5.
Proof.
  assert (0 <= 0 <= 5) as Ha by lia.
  assert (0 <= 5 <= 5) as Hb by lia.
  assert (0 <> 5) as N by lia.
  repeat (split; [assumption | ]).
  exact (baud_set_injective_on_defined 0 5 Ha Hb N).
Defined.

(** X2. The decoder agrees with the rate table of README.md: for every
    row with timing columns, [baud_set] of the select code is the
    column gen-div-N, the generated frequency is UART-div times the
    baud rate, and the oscillator frequency is 2 * (divisor + 1) times
    the generated frequency; rows naming the same baud rate (the codes
    1, 6 and 7, all 9600) get the same divisor. *)
Theorem baud_set_matches_readme :
  Forall (fun row =>
            match row_timing row with
            | Some (n, u, f) =>
                baud_set (row_select row) = n /\
                f = u * row_baud row /\
                2 * (baud_set (row_select row) + 1) * f = OSC_HZ
            | None => True
            end) readme_table /\
  Forall (fun r1 =>
            Forall (fun r2 =>
                      row_baud r1 = row_baud r2 ->
                      baud_set (row_select r1) = baud_set (row_select r2))
                   readme_table) readme_table.
Proof.
  split.
  - repeat constructor.
  - repeat (constructor;
            [ repeat (constructor;
                      [ intros E; try reflexivity; discriminate E | ]);
              constructor | ]).
    constructor.
Qed.

(* ------------------------------------------------------------------ *)
(** ** Further properties of ioinit *)

(** X3. [ioinit] only stores constants: every register it writes
    holds afterwards a value that does not depend on the state it was
    started in, and running [ioinit] once more leaves that register as
    it is. *)
Theorem ioinit_state_independent (m1 m2 : mcu) (r : reg) :
  In r (map fst (register_writes (emitted ioinit m1))) ->
  io (snd (ioinit m1)) r = io (snd (ioinit m2)) r /\
  io (snd (ioinit (snd (ioinit m1)))) r = io (snd (ioinit m1)) r.
Proof.
  rewrite ioinit_emitted. cbn [register_writes map fst].
  intros H.
  repeat (destruct H as [<- | H]; [split; reflexivity | ]).
  destruct H.
Qed.

Lemma ioinit_state_independent_witness :
  In CLKPR (map fst (register_writes (emitted ioinit power_on))) /\
  io (snd (ioinit power_on)) CLKPR =
  io (snd (ioinit (snd (main [0x2a] power_on)))) CLKPR.
Proof.
  assert (In CLKPR (map fst (register_writes (emitted ioinit power_on))))
    as H by (left; reflexivity).
  split; [exact H | ].
  exact (proj1 (ioinit_state_independent power_on
                  (snd (main [0x2a] power_on)) CLKPR H)).
Defined.

Lemma startup_ports (m0 : mcu) :
  io (snd (startup m0)) DDRA = 0x40 /\ io (snd (startup m0)) PORTA = 0x3f.
Proof. split; reflexivity. Qed.

(** X4. After start-up the bits the loop samples are exactly the pins
    of port A set up as inputs with pull-up: bit [i] of BAUD_SEL_MASK
    is set if and only if bit [i] of DDRA is clear and bit [i] of PORTA
    is set. *)
Theorem selector_pins_pulled_up_inputs (m0 : mcu) (i : Z) :
  Z.testbit BAUD_SEL_MASK i = true <->
  (Z.testbit (io (snd (startup m0)) DDRA) i = false /\
   Z.testbit (io (snd (startup m0)) PORTA) i = true).
Proof.
  destruct (startup_ports m0) as [-> ->].
  unfold BAUD_SEL_MASK.
  assert (i < 0 \/ i = 0 \/ i = 1 \/ i = 2 \/ i = 3 \/ i = 4 \/ i = 5 \/
          i = 6 \/ i = 7 \/ 8 <= i) as C by lia.
  destruct C as [Hneg | C].
  { rewrite !Z.testbit_neg_r by exact Hneg. intuition discriminate. }
  repeat (destruct C as [-> | C]; [vm_compute; intuition discriminate | ]).
  assert (forall a, 0 <= a < 256 -> Z.testbit a i = false) as Hi.
  { intros a Ha. destruct (Z.eq_dec a 0) as [-> | Hnz].
    - apply Z.testbit_0_l.
    - apply Z.bits_above_log2; [lia | ].
      assert (Z.log2 a < 8) by (apply Z.log2_lt_pow2; lia). lia. }
  rewrite !Hi by lia. intuition discriminate.
Qed.

(* ------------------------------------------------------------------ *)
(** ** Further properties of the loop *)

Lemma loop_body_twice (pina prev : Z) (m : mcu) :
  loop_body pina (fst (loop_body pina prev m)) (snd (loop_body pina prev m)) =
  loop_body pina prev m.
Proof.
  rewrite loop_body_same by (symmetry; apply loop_body_fst).
  destruct (loop_body pina prev m). reflexivity.
Qed.

Lemma loop_body_input (a b prev : Z) (m : mcu) :
  Z.land a 0x3f = Z.land b 0x3f -> loop_body a prev m = loop_body b prev m.
Proof.
  intros E. rewrite <- !baud_select_land in E.
  unfold loop_body. rewrite E. reflexivity.
Qed.

(** X6. After any non-empty run of the loop, [prev_selection] is the
    low six bits of the last sample, whatever it was at the start. *)
Theorem poll_prev_is_last_sample (samples : list Z) (x prev : Z) (m : mcu) :
  fst (poll (samples ++ [x]) prev m) = Z.land x 0x3f.
Proof.
  rewrite poll_app_eq, poll_single, loop_body_fst. apply baud_select_land.
Qed.

(** X7. Sampling the same value several times in a row has the effect
    of sampling it once: the result of the loop does not depend on how
    often an unchanged input is polled. *)
Theorem poll_stutter (n : nat) (x : Z) (rest : list Z) (prev : Z) (m : mcu) :
  poll (repeat x (S n) ++ rest) prev m = poll (x :: rest) prev m.
Proof.
  induction n as [| n IH].
  - reflexivity.
  - rewrite <- IH.
    change (repeat x (S (S n)) ++ rest) with (x :: x :: repeat x n ++ rest).
    change (repeat x (S n) ++ rest) with (x :: repeat x n ++ rest).
    rewrite (poll_cons x (x :: _)), (poll_cons x (repeat x n ++ rest)).
    rewrite (poll_cons x (repeat x n ++ rest)).
    rewrite loop_body_twice. reflexivity.
Qed.

(** X8. The loop ignores bits 6 and 7 of port A (PA6 is the clock
    output OC1A itself): two sequences of samples that agree in the low
    six bits give the same result. *)
Theorem poll_ignores_high_bits (s1 s2 : list Z) (prev : Z) (m : mcu) :
  Forall2 (fun a b => Z.land a 0x3f = Z.land b 0x3f) s1 s2 ->
  poll s1 prev m = poll s2 prev m.
Proof.
  intros H. revert prev m.
  induction H as [| a b s1 s2 E _ IH]; intros prev m.
  - reflexivity.
  - rewrite !poll_cons, (loop_body_input a b prev m E). apply IH.
Qed.

Lemma poll_ignores_high_bits_witness :
  Forall2 (fun a b => Z.land a 0x3f = Z.land b 0x3f)
          [0x0a; 0x4a; 0x02] [0xca; 0x0a; 0x42] /\
  poll [0x0a; 0x4a; 0x02] 0 power_on = poll [0xca; 0x0a; 0x42] 0 power_on.
Proof.
  assert (Forall2 (fun a b => Z.land a 0x3f = Z.land b 0x3f)
                  [0x0a; 0x4a; 0x02] [0xca; 0x0a; 0x42]) as H
    by (repeat constructor).
  split; [exact H | ].
  exact (poll_ignores_high_bits _ _ 0 power_on H).
Defined.

Lemma applied_io_other (bits : Z) (m : mcu) (r : reg) :
  r <> OCR0A -> r <> OCR1A -> io (applied bits m) r = io m r.
Proof.
  intros N0 N1. unfold applied, upd. cbn [io].
  destruct (reg_eq_dec OCR1A r) as [E | _]; [congruence | ].
  destruct (reg_eq_dec OCR0A r) as [E | _]; [congruence | ].
  reflexivity.
Qed.

Lemma loop_body_io_other (pina prev : Z) (m : mcu) (r : reg) :
  r <> OCR0A -> r <> OCR1A -> io (snd (loop_body pina prev m)) r = io m r.
Proof.
  intros N0 N1.
  destruct (loop_body_cases pina prev m) as [[_ H] | [_ H]]; rewrite H.
  - reflexivity.
  - apply applied_io_other; assumption.
Qed.

Lemma loop_body_sreg (pina prev : Z) (m : mcu) :
  sreg_i (snd (loop_body pina prev m)) = sreg_i m.
Proof.
  destruct (loop_body_cases pina prev m) as [[_ H] | [_ H]]; rewrite H;
    reflexivity.
Qed.

Lemma poll_io_other (samples : list Z) (r : reg) :
  r <> OCR0A -> r <> OCR1A ->
  forall prev m, io (snd (poll samples prev m)) r = io m r.
Proof.
  intros N0 N1.
  induction samples as [| x rest IH]; intros prev m.
  - reflexivity.
  - rewrite poll_cons, IH. apply loop_body_io_other; assumption.
Qed.

Lemma poll_sreg (samples : list Z) :
  forall prev m, sreg_i (snd (poll samples prev m)) = sreg_i m.
Proof.
  induction samples as [| x rest IH]; intros prev m.
  - reflexivity.
  - rewrite poll_cons, IH. apply loop_body_sreg.
Qed.

Lemma poll_writes_compare_only (samples : list Z) :
  forall prev m,
    Forall (fun w => fst w = OCR0A \/ fst w = OCR1A)
           (register_writes (emitted (poll samples prev) m)).
Proof.
  induction samples as [| x rest IH]; intros prev m.
  - cbn [poll]. rewrite emitted_ret. constructor.
  - rewrite emitted_poll_cons, register_writes_app.
    apply Forall_app. split; [ | apply IH].
    pose proof (loop_body_ranges x prev m) as [_ W].
    revert W. apply Forall_impl. intros w [E _]. exact E.
Qed.

(** X9. The loop writes only the two compare registers: every other
    register, and the global interrupt flag, is after any number of
    passes what it was before. *)
Theorem poll_frame (samples : list Z) (prev : Z) (m : mcu) (r : reg) :
  r <> OCR0A -> r <> OCR1A ->
  io (snd (poll samples prev m)) r = io m r /\
  sreg_i (snd (poll samples prev m)) = sreg_i m /\
  Forall (fun w => fst w <> r)
         (register_writes (emitted (poll samples prev) m)).
Proof.
  intros N0 N1.
  split; [apply poll_io_other; assumption | ].
  split; [apply poll_sreg | ].
  pose proof (poll_writes_compare_only samples prev m) as W.
  revert W. apply Forall_impl.
  intros w [E | E]; congruence.
Qed.

Lemma poll_frame_witness :
  TCCR0A <> OCR0A /\ TCCR0A <> OCR1A /\
  io (snd (poll [0x0a; 0x3f] 0 (snd (startup power_on)))) TCCR0A = 0x42.
Proof.
  assert (TCCR0A <> OCR0A) as N0 by discriminate.
  assert (TCCR0A <> OCR1A) as N1 by discriminate.
  repeat (split; [assumption | ]).
  exact (proj1 (poll_frame [0x0a; 0x3f] 0 (snd (startup power_on))
                  TCCR0A N0 N1)).
Defined.

(** X10. [main] never enables interrupts and never disturbs the set-up
    of [ioinit]: after any number of passes, from any starting state,
    the global interrupt flag is clear, both timer interrupt masks are
    0, and the clock prescaler, timer mode and port registers hold the
    values [ioinit] wrote. *)
Theorem main_keeps_configuration (samples : list Z) (m0 : mcu) :
  let m := snd (main samples m0) in
  sreg_i m = false /\
  io m TIMSK0 = 0 /\ io m TIMSK1 = 0 /\
  io m CLKPR = 0 /\
  io m TCCR0A = TCCR0A_INIT /\ io m TCCR0B = TCCR0B_INIT /\
  io m TCCR1A = TCCR1A_INIT /\ io m TCCR1B = TCCR1B_INIT /\
  io m DDRA = PA_DDR_INIT /\ io m PORTA = PA_PUP_INIT /\
  io m DDRB = PB_DDR_INIT /\ io m PORTB = 0.
Proof.
  cbv zeta. rewrite main_unfold, poll_sreg.
  rewrite !poll_io_other by discriminate.
  repeat split.
Qed.

(* ------------------------------------------------------------------ *)
(** ** The compare registers follow the selection *)

Lemma applied_tracks (bits : Z) (m : mcu) : tracks bits (applied bits m).
Proof. split; reflexivity. Qed.

Lemma loop_body_tracks (pina prev : Z) (m : mcu) :
  tracks prev m ->
  tracks (fst (loop_body pina prev m)) (snd (loop_body pina prev m)).
Proof.
  intros T.
  destruct (loop_body_cases pina prev m) as [[_ H] | [_ H]]; rewrite H.
  - exact T.
  - apply applied_tracks.
Qed.

Lemma poll_tracks_keep (samples : list Z) :
  forall prev m,
    tracks prev m ->
    tracks (fst (poll samples prev m)) (snd (poll samples prev m)).
Proof.
  induction samples as [| x rest IH]; intros prev m T.
  - exact T.
  - rewrite poll_cons. apply IH, loop_body_tracks, T.
Qed.

Lemma poll_tracks_after_change (samples : list Z) :
  forall prev m,
    Exists (fun p => Z.land p 0x3f <> prev) samples ->
    tracks (fst (poll samples prev m)) (snd (poll samples prev m)).
Proof.
  induction samples as [| x rest IH]; intros prev m H.
  - inversion H.
  - rewrite poll_cons.
    destruct (loop_body_cases x prev m) as [[E L] | [_ L]]; rewrite L.
    + cbn [fst snd]. apply IH.
      inversion H as [? ? N | ? ? R]; subst.
      * rewrite <- baud_select_land in N. contradiction.
      * exact R.
    + cbn [fst snd]. apply poll_tracks_keep, applied_tracks.
Qed.

(** X11. Once the compare registers hold the divisors of
    [prev_selection], they do so after every further pass: the loop
    keeps the registers in step with the selection it remembers. *)
Theorem poll_tracks (samples : list Z) (prev : Z) (m : mcu) :
  tracks prev m ->
  tracks (fst (poll samples prev m)) (snd (poll samples prev m)).
Proof. apply poll_tracks_keep. Qed.

Lemma poll_tracks_witness :
  tracks 0x09 (snd (startup power_on)) /\
  tracks (fst (poll [0x09; 0x2a] 0x09 (snd (startup power_on))))
         (snd (poll [0x09; 0x2a] 0x09 (snd (startup power_on)))).
Proof.
  assert (tracks 0x09 (snd (startup power_on))) as T by (split; reflexivity).
  split; [exact T | ].
  exact (poll_tracks [0x09; 0x2a] 0x09 (snd (startup power_on)) T).
Defined.

(** X12. As soon as some sample has differed from 0 in its low six
    bits, the compare registers after [main]'s loop hold the divisors
    of the last sample: OCR0A that of its bits 0..2 and OCR1A that of
    its bits 3..5, also when the last sample is 0 again. *)
Theorem main_compare_registers (samples : list Z) (x : Z) (m0 : mcu) :
  Exists (fun p => Z.land p 0x3f <> 0) (samples ++ [x]) ->
  let m := snd (main (samples ++ [x]) m0) in
  io m OCR0A = baud_set (Z.land x 0x07) /\
  io m OCR1A = baud_set (Z.land (Z.shiftr x 3) 0x07).
Proof.
  intros H m. subst m. rewrite main_unfold.
  pose proof (poll_tracks_after_change _ 0 (snd (startup m0)) H) as [Ta Tb].
  rewrite Ta, Tb.
  rewrite poll_app_eq, poll_single, loop_body_fst.
  rewrite field_a_raw, field_b_raw. split; reflexivity.
Qed.

Lemma main_compare_registers_witness :
  Exists (fun p => Z.land p 0x3f <> 0) ([0x00; 0x2a] ++ [0x00]) /\
  io (snd (main ([0x00; 0x2a] ++ [0x00]) power_on)) OCR0A = 23 /\
  io (snd (main ([0x00; 0x2a] ++ [0x00]) power_on)) OCR1A = 23.
Proof.
  assert (Exists (fun p => Z.land p 0x3f <> 0) ([0x00; 0x2a] ++ [0x00])) as H.
  { apply Exists_cons_tl, Exists_cons_hd. vm_compute. discriminate. }
  split; [exact H | ].
  exact (main_compare_registers [0x00; 0x2a] 0x00 power_on H).
Defined.

(** X13. Changing the selector of one channel leaves the divisor of the
    other as it is: when the registers hold the divisors of
    [prev_selection] and the new sample has the same bits 0..2, OCR0A
    holds the same value after the pass, and likewise OCR1A for bits
    3..5. *)
Theorem other_channel_undisturbed (pina prev : Z) (m : mcu) :
  tracks prev m ->
  (Z.land pina 0x07 = Z.land prev 0x07 ->
   io (snd (loop_body pina prev m)) OCR0A = io m OCR0A) /\
  (Z.land (Z.shiftr pina 3) 0x07 = Z.land (Z.shiftr prev 3) 0x07 ->
   io (snd (loop_body pina prev m)) OCR1A = io m OCR1A).
Proof.
  intros [Ta Tb].
  destruct (loop_body_cases pina prev m) as [[_ H] | [_ H]]; rewrite H;
    cbn [snd].
  - split; reflexivity.
  - destruct (applied_tracks (baud_select pina) m) as [Aa Ab].
    rewrite Aa, Ab, Ta, Tb, field_a_raw, field_b_raw.
    split; intros E; rewrite E; reflexivity.
Qed.

Lemma other_channel_undisturbed_witness :
  tracks 0x09 (snd (startup power_on)) /\
  Z.land 0x29 0x07 = Z.land 0x09 0x07 /\
  io (snd (loop_body 0x29 0x09 (snd (startup power_on)))) OCR0A =
  io (snd (startup power_on)) OCR0A.
Proof.
  assert (tracks 0x09 (snd (startup power_on))) as T by (split; reflexivity).
  assert (Z.land 0x29 0x07 = Z.land 0x09 0x07) as E by reflexivity.
  repeat (split; [assumption | ]).
  exact (proj1 (other_channel_undisturbed 0x29 0x09
                  (snd (startup power_on)) T) E).
Defined.

(* ------------------------------------------------------------------ *)
(** ** What the loop writes *)

(** X14. The loop writes what the decoder returned and nothing else:
    over any run, the values written are, in order, [baud_set] of the
    arguments it was called with, and the registers written are OCR0A
    and OCR1A in turn, at most one such pair per pass. *)
Theorem poll_writes_decoded (samples : list Z) (prev : Z) (m : mcu) :
  let evs := emitted (poll samples prev) m in
  map snd (register_writes evs) = map baud_set (decoder_args evs) /\
  exists n, (n <= length samples)%nat /\
            map fst (register_writes evs) = concat (repeat [OCR0A; OCR1A] n).
Proof.
  cbv zeta. revert prev m.
  induction samples as [| x rest IH]; intros prev m.
  - cbn [poll]. rewrite emitted_ret. split; [reflexivity | ].
    exists 0%nat. split; [apply Nat.le_refl | reflexivity].
  - rewrite emitted_poll_cons, register_writes_app, decoder_args_app.
    rewrite !map_app.
    destruct (IH (fst (loop_body x prev m)) (snd (loop_body x prev m)))
      as [V [n [Hn F]]].
    rewrite V, F.
    destruct (Z.eq_dec (baud_select x) prev) as [E | N].
    + rewrite (emitted_loop_body_same _ _ _ E). split; [reflexivity | ].
      exists n. split; [cbn [length]; lia | reflexivity].
    + rewrite (emitted_loop_body_diff _ _ _ N). split; [reflexivity | ].
      exists (S n). split; [cbn [length]; lia | reflexivity].
Qed.

(** X15. The loop stays silent exactly when nothing changes: a run
    emits no event if and only if every sample equals, in its low six
    bits, the [prev_selection] the run started with. *)
Theorem poll_silent_iff (samples : list Z) (prev : Z) (m : mcu) :
  emitted (poll samples prev) m = [] <->
  Forall (fun p => Z.land p 0x3f = prev) samples.
Proof.
  split.
  - revert prev m.
    induction samples as [| x rest IH]; intros prev m H.
    + constructor.
    + rewrite emitted_poll_cons in H.
      apply app_eq_nil in H. destruct H as [H1 H2].
      destruct (Z.eq_dec (baud_select x) prev) as [E | N].
      * constructor.
        -- rewrite <- baud_select_land. exact E.
        -- rewrite (loop_body_same _ _ _ E) in H2. cbn [fst snd] in H2.
           apply (IH prev m). exact H2.
      * rewrite (emitted_loop_body_diff _ _ _ N) in H1. discriminate H1.
  - intros H. apply emitted_intro.
    rewrite (poll_all_same samples prev m H). simpl.
    rewrite app_nil_r. reflexivity.
Qed.

Lemma poll_silent_iff_witness :
  Forall (fun p => Z.land p 0x3f = 0x15) [0x15; 0x55; 0xd5] /\
  emitted (poll [0x15; 0x55; 0xd5] 0x15) power_on = [].
Proof.
  assert (Forall (fun p => Z.land p 0x3f = 0x15) [0x15; 0x55; 0xd5]) as H
    by (repeat constructor).
  split; [exact H | ].
  exact (proj2 (poll_silent_iff [0x15; 0x55; 0xd5] 0x15 power_on) H).
Defined.
